(** * serializer: a schema-driven JSON codec

    Shallow embedding of [serializer.py] and the properties of its
    matcher ([_from_json_with_match]), coercer ([_field_from_json]),
    projector ([_to_json_with_match]) and renderer ([_fields_to_json]). *)

From Stdlib Require Import ZArith String List Bool Lia.
From stdpp Require Import base option list strings gmap.

Set Warnings "-register-all,-at-level-200-changed".

Local Open Scope Z_scope.
Local Open Scope string_scope.
Local Open Scope list_scope.

(** ** Exceptions and the error monad *)

(** The exceptions the module can raise.  The four [TypeError]s raised by
    the module itself are kept apart by their message; the others are
    raised by the Python runtime. *)
Inductive error : Type :=
| LiteralMismatch      (* TypeError: string literal did not match *)
| LiteralSetMismatch   (* TypeError: _field_from_json .. did not match *)
| UnionExhausted       (* TypeError: .. did not match any union type *)
| SchemaMalformed      (* TypeError: .. called with some jank *)
| AssertionFailed      (* AssertionError *)
| NotIterable          (* TypeError: object is not iterable *)
| NoLen                (* TypeError: object has no len() *)
| AttributeMissing     (* AttributeError *)
| ConstructorMismatch. (* TypeError raised by the dataclass __init__ *)

Inductive result (A : Type) : Type :=
| Ok (a : A)
| Raise (e : error).
Arguments Ok {A} a.
Arguments Raise {A} e.

Definition rbind {A B} (m : result A) (k : A -> result B) : result B :=
  match m with
  | Ok a => k a
  | Raise e => Raise e
  end.

Notation "'do' x <- m ; k" := (rbind m (fun x => k))
  (at level 200, x name, m at level 100, k at level 200,
   format "'[v' 'do'  x  <-  m ; '/' k ']'").

Definition succeeds {A} (m : result A) : bool :=
  match m with Ok _ => true | Raise _ => false end.

(** A list comprehension [[f x for x in l]]: the elements are computed
    from left to right and the first exception ends the comprehension. *)
Fixpoint comprehension {A B} (f : A -> result B) (l : list A) : result (list B) :=
  match l with
  | [] => Ok []
  | x :: l' => do y <- f x; do ys <- comprehension f l'; Ok (y :: ys)
  end.

(** ** Data model *)

(** Parsed JSON trees: the input of [from_json] and the output of
    [to_json].  Objects keep their keys in insertion order. *)
Inductive json : Type :=
| JStr (s : string)
| JInt (z : Z)
| JBool (b : bool)
| JList (l : list json)
| JDict (d : list (string * json)).

(** A schema: a string, an integer, a boolean, a list (or tuple) of
    schemas, or any other object ([SOther]). *)
Inductive schema : Type :=
| SStr (s : string)
| SInt (z : Z)
| SBool (b : bool)
| SSeq (l : list schema)
| SOther.

Inductive prim : Type := PStr | PInt | PBool.

(** The arguments of a [Literal[...]]. *)
Inductive literal : Type :=
| LStr (s : string)
| LInt (z : Z)
| LBool (b : bool).

(** Field types, as [_field_from_json] tells them apart, and the classes
    made by [serializer]: a schema ([_schema]) and the annotated fields in
    declaration order ([__annotations__]). *)
Inductive field_type : Type :=
| TPrim (p : prim)                    (* str, int, bool *)
| TLiteral (args : list literal)      (* Literal[a, b, ..] *)
| TUnion (args : list field_type)     (* Union[A, B, ..] *)
| TList (arg : field_type)            (* List[A] *)
| TTuple (args : list field_type)     (* Tuple[A, B, ..] *)
| TDict (key val : field_type)        (* Dict[K, V] *)
| TClass (cls : class)                (* a class made by serializer *)
| TOther                              (* anything else: no from_json *)
with class : Type :=
| Class (name : string) (sch : schema) (annotations : list (string * field_type)).

Definition _schema (cls : class) : schema :=
  match cls with Class _ s _ => s end.

Definition __annotations__ (cls : class) : list (string * field_type) :=
  match cls with Class _ _ a => a end.

(** Python values held by the fields of an instance.  [VGen] is a
    generator object made by the generator expression of the tuple branch
    of [_field_from_json]: it holds the pairs of [zip] that it has not yet
    coerced.  [VObj] is an instance of a serializer class with its
    attributes. *)
Inductive value : Type :=
| VStr (s : string)
| VInt (z : Z)
| VBool (b : bool)
| VList (l : list value)
| VTuple (l : list value)
| VDict (d : list (string * value))
| VGen (pending : list (json * field_type))
| VObj (cls : class) (attrs : list (string * value)).

(** A JSON tree is a Python value. *)
Fixpoint inject (j : json) : value :=
  match j with
  | JStr s => VStr s
  | JInt z => VInt z
  | JBool b => VBool b
  | JList l => VList (map inject l)
  | JDict d => VDict (map (fun kv => (fst kv, inject (snd kv))) d)
  end.

(** ** Python built-ins on JSON trees *)

Fixpoint chars (s : string) : list json :=
  match s with
  | EmptyString => []
  | String c s' => JStr (String c EmptyString) :: chars s'
  end.

(** [iter(j)]: the elements of a list, the characters of a string, the
    keys of a dict; integers and booleans are not iterable. *)
Definition py_iter (j : json) : result (list json) :=
  match j with
  | JList l => Ok l
  | JStr s => Ok (chars s)
  | JDict d => Ok (map (fun kv => JStr (fst kv)) d)
  | JInt _ | JBool _ => Raise NotIterable
  end.

(** [len(j)]. *)
Definition py_len (j : json) : result nat :=
  match j with
  | JList l => Ok (length l)
  | JStr s => Ok (String.length s)
  | JDict d => Ok (length d)
  | JInt _ | JBool _ => Raise NoLen
  end.

Definition Z_of_bool (b : bool) : Z := if b then 1 else 0.

(** [j == a] for an argument [a] of a [Literal]: booleans are integers
    ([True == 1]), a string equals only the same string, and lists and
    dicts equal no literal. *)
Definition literal_eq (j : json) (a : literal) : bool :=
  match j, a with
  | JStr s, LStr s' => String.eqb s s'
  | JInt z, LInt z' => Z.eqb z z'
  | JInt z, LBool b => Z.eqb z (Z_of_bool b)
  | JBool b, LInt z => Z.eqb (Z_of_bool b) z
  | JBool b, LBool b' => Bool.eqb b b'
  | _, _ => false
  end.

(** [j in args]. *)
Definition literal_in (j : json) (args : list literal) : bool :=
  existsb (literal_eq j) args.

(** [schema == j] for a string [schema]. *)
Definition str_eq_json (s : string) (j : json) : bool :=
  match j with
  | JStr s' => String.eqb s s'
  | _ => false
  end.

(** [name in fields] and [fields[name]] on a dict kept as a list. *)
Fixpoint lookup_field {A} (name : string) (fields : list (string * A)) : option A :=
  match fields with
  | [] => None
  | (k, a) :: fields' => if String.eqb name k then Some a else lookup_field name fields'
  end.

(** ** Deserialization *)

(** [dict(ChainMap(..))] over the maps of the siblings: a [ChainMap]
    looks a key up in its maps from first to last, so a key takes its
    value from the first map that has it. *)
Definition chain_map (maps : list (gmap string value)) : gmap string value :=
  foldr (fun m acc => m ∪ acc) ∅ maps.

(** The call of [cls] with the bindings as keyword arguments: the
    [__init__] that [dataclass] generates takes every annotated field by
    name, in declaration order, and no other name. *)
Definition construct (cls : class) (bindings : gmap string value) : result value :=
  let names := map fst (__annotations__ cls) in
  if forallb (fun k => bool_decide (k ∈ names)) (map fst (map_to_list bindings))
  then
    do attrs <- comprehension
                  (fun k => match bindings !! k with
                            | Some v => Ok (k, v)
                            | None => Raise ConstructorMismatch
                            end) names;
    Ok (VObj cls attrs)
  else Raise ConstructorMismatch.

(** The matcher calls the coercer and the coercer, on a class, calls the
    matcher.  The matcher is therefore written first over [coerce], which
    pairs each field name with [fun j => _field_from_json j fields[name]];
    [_from_json_with_match] below takes the field types themselves, and
    [from_json_with_match_str] and [from_json_with_match_seq] give its
    branches as the source has them.  The sequence branch walks
    [zip(j, schema)]: it stops at the end of the shorter of the two. *)
Section Matcher.
Variable coerce : list (string * (json -> result value)).

Fixpoint match_schema (sch : schema) (j : json) {struct sch}
  : result (gmap string value) :=
  match sch with
  | SSeq subs =>
      do js <- py_iter j;
      do maps <- (fix zipped (subs : list schema) (js : list json) {struct subs}
                    : result (list (gmap string value)) :=
                    match subs, js with
                    | sub_schema :: subs', sub_j :: js' =>
                        do m <- match_schema sub_schema sub_j;
                        do ms <- zipped subs' js';
                        Ok (m :: ms)
                    | _, _ => Ok []
                    end) subs js;
      Ok (chain_map maps)
  | SStr s =>
      match lookup_field s coerce with
      | Some field_from_json => do v <- field_from_json j; Ok {[ s := v ]}
      | None =>
          if str_eq_json s j then Ok ∅ else Raise LiteralMismatch
      end
  | SInt _ | SBool _ => Ok ∅
  | SOther => Raise SchemaMalformed
  end.

End Matcher.

(** The first alternative of a union that does not raise. *)
Fixpoint first_success (tries : list (result value)) : result value :=
  match tries with
  | [] => Raise UnionExhausted
  | Ok v :: _ => Ok v
  | Raise _ :: tries' => first_success tries'
  end.

(** The coercer.  The branches are those of the source, in its order:
    primitives, literals, unions (every exception of an alternative is
    swallowed), lists (a comprehension, built at once), tuples (the length
    is asserted, then a generator expression over [zip] is returned as it
    is), dicts ([assert False]), and [field_type.from_json(j)] for what is
    left ([field_from_json_class]). *)
Fixpoint _field_from_json (j : json) (field_type : field_type) {struct field_type}
  : result value :=
  match field_type with
  | TPrim _ => Ok (inject j)
  | TLiteral args =>
      if literal_in j args then Ok (inject j) else Raise LiteralSetMismatch
  | TUnion args =>
      first_success (map (fun union_type => _field_from_json j union_type) args)
  | TList arg =>
      do js <- py_iter j;
      do vs <- comprehension (fun sub_j => _field_from_json sub_j arg) js;
      Ok (VList vs)
  | TTuple args =>
      do n <- py_len j;
      if Nat.eqb n (length args)
      then do js <- py_iter j; Ok (VGen (combine js args))
      else Raise AssertionFailed
  | TDict _ _ => Raise AssertionFailed
  | TClass (Class name sch annotations as cls) =>
      do bindings <-
        match_schema
          (map (fun kt => (fst kt, fun j' => _field_from_json j' (snd kt))) annotations)
          sch j;
      construct cls bindings
  | TOther => Raise AttributeMissing
  end.

(** The coercion of each field of [fields]. *)
Definition coercers (fields : list (string * field_type))
  : list (string * (json -> result value)) :=
  map (fun kt => (fst kt, fun j => _field_from_json j (snd kt))) fields.

Definition _from_json_with_match (j : json) (sch : schema)
    (fields : list (string * field_type)) : result (gmap string value) :=
  match_schema (coercers fields) sch j.

(** [cls.from_json(j)]. *)
Definition from_json (cls : class) (j : json) : result value :=
  do bindings <- _from_json_with_match j (_schema cls) (__annotations__ cls);
  construct cls bindings.

(** ** Serialization *)

(** The projector, over the names of the annotated fields of the object
    and the rendering of each of its attributes: [rendered] pairs an
    attribute name with [_fields_to_json(getattr(obj, name))]. *)
Section Projector.
Variable fields : list string.
Variable rendered : list (string * result json).

Fixpoint project (sch : schema) : result json :=
  match sch with
  | SSeq subs => do js <- comprehension project subs; Ok (JList js)
  | SStr s =>
      if bool_decide (s ∈ fields)
      then match lookup_field s rendered with
           | Some r => r
           | None => Raise AttributeMissing
           end
      else Ok (JStr s)
  | SInt z => Ok (JInt z)
  | SBool b => Ok (JBool b)
  | SOther => Raise SchemaMalformed
  end.
End Projector.

(** The renderer.  The keys of a dict of the model are strings, so the
    assertion of the dict branch holds; the last branch is [j.to_json()],
    which an instance has and a generator has not. *)
Fixpoint _fields_to_json (j : value) : result json :=
  match j with
  | VStr s => Ok (JStr s)
  | VInt z => Ok (JInt z)
  | VBool b => Ok (JBool b)
  | VList l | VTuple l =>
      do js <- comprehension _fields_to_json l; Ok (JList js)
  | VDict d =>
      do kvs <- comprehension
                  (fun kv => do v <- _fields_to_json (snd kv); Ok (fst kv, v)) d;
      Ok (JDict kvs)
  | VGen _ => Raise AttributeMissing
  | VObj cls attrs =>
      project (map fst (__annotations__ cls))
        (map (fun kv => (fst kv, _fields_to_json (snd kv))) attrs)
        (_schema cls)
  end.

(** [getattr(obj, "__annotations__", {})]. *)
Definition annotations_of (obj : value) : list (string * field_type) :=
  match obj with
  | VObj cls _ => __annotations__ cls
  | _ => []
  end.

Definition attributes_of (obj : value) : list (string * value) :=
  match obj with
  | VObj _ attrs => attrs
  | _ => []
  end.

Definition _to_json_with_match (sch : schema) (obj : value) : result json :=
  project (map fst (annotations_of obj))
    (map (fun kv => (fst kv, _fields_to_json (snd kv))) (attributes_of obj))
    sch.

(** [obj.to_json()]. *)
Definition to_json (obj : value) : result json :=
  match obj with
  | VObj cls _ => _to_json_with_match (_schema cls) obj
  | _ => Raise AttributeMissing
  end.

(** ** Typed instances *)

(** The names that occur as string leaves of a schema. *)
Fixpoint schema_strings (sch : schema) : list string :=
  match sch with
  | SStr s => [s]
  | SSeq subs => flat_map schema_strings subs
  | SInt _ | SBool _ | SOther => []
  end.

(** A schema that [_to_json_with_match] can walk: no leaf is [SOther]. *)
Fixpoint schema_walkable (sch : schema) : bool :=
  match sch with
  | SSeq subs => forallb schema_walkable subs
  | SOther => false
  | SStr _ | SInt _ | SBool _ => true
  end.

(** [accepts t v]: the coercer does not raise on the rendering of [v]. *)
Definition accepts (t : field_type) (v : value) : bool :=
  match _fields_to_json v with
  | Ok j => succeeds (_field_from_json j t)
  | Raise _ => false
  end.

(** [has_type t v]: the value [v] is what a field annotated with [t]
    holds.  A value of a union belongs to one alternative and no earlier
    alternative accepts its rendering; an instance of a class has the
    annotated fields, each of its type, and the schema of the class names
    every field.  Tuples, dicts and foreign types have no values here. *)
Fixpoint has_type (t : field_type) (v : value) {struct t} : Prop :=
  match t with
  | TPrim PStr => match v with VStr _ => True | _ => False end
  | TPrim PInt => match v with VInt _ | VBool _ => True | _ => False end
  | TPrim PBool => match v with VBool _ => True | _ => False end
  | TLiteral args =>
      match v with
      | VStr s => literal_in (JStr s) args = true
      | VInt z => literal_in (JInt z) args = true
      | VBool b => literal_in (JBool b) args = true
      | _ => False
      end
  | TUnion args =>
      (fix alternative (args : list field_type) : Prop :=
         match args with
         | [] => False
         | t' :: args' =>
             has_type t' v \/ (accepts t' v = false /\ alternative args')
         end) args
  | TList arg =>
      match v with
      | VList l => Forall (has_type arg) l
      | _ => False
      end
  | TClass (Class name sch annotations as cls) =>
      match v with
      | VObj cls' attrs =>
          cls' = cls /\
          NoDup (map fst annotations) /\
          schema_walkable sch = true /\
          (forall k, In k (map fst annotations) -> In k (schema_strings sch)) /\
          (fix typed (annotations : list (string * field_type))
               (attrs : list (string * value)) : Prop :=
             match annotations, attrs with
             | [], [] => True
             | (k, t') :: annotations', (k', v') :: attrs' =>
                 k' = k /\ has_type t' v' /\ typed annotations' attrs'
             | _, _ => False
             end) annotations attrs
      | _ => False
      end
  | TTuple _ | TDict _ _ | TOther => False
  end.

(** Iterating a generator to its end, as [tuple(gen)] or [list(gen)]
    would: each pending pair is coerced then, not before. *)
Definition exhaust (v : value) : result (list value) :=
  match v with
  | VGen pending =>
      comprehension (fun p => _field_from_json (fst p) (snd p)) pending
  | VList l | VTuple l => Ok l
  | _ => Raise NotIterable
  end.

(** The fields of an instance, one by one against the annotations. *)
Definition typed_fields (annotations : list (string * field_type))
    (attrs : list (string * value)) : Prop :=
  Forall2 (fun kt kv => fst kv = fst kt /\ has_type (snd kt) (snd kv))
    annotations attrs.

(** Bindings that hold attributes of the instance. *)
Definition sound (attrs : list (string * value)) (b : gmap string value) : Prop :=
  forall k v, b !! k = Some v -> lookup_field k attrs = Some v.

(** ** JSON values of the shape of a schema *)

(** [exact_shape sch j]: [j] has the shape that projecting [sch] gives:
    an array with one element for each sub-schema where [sch] is a
    sequence, and the integer or boolean of the schema at its place.
    Strings are left to the matcher, which compares them. *)
Fixpoint exact_shape (sch : schema) (j : json) {struct sch} : Prop :=
  match sch with
  | SStr _ => True
  | SInt z => j = JInt z
  | SBool b => j = JBool b
  | SSeq subs =>
      match j with
      | JList js =>
          (fix aligned (subs : list schema) (js : list json) : Prop :=
             match subs, js with
             | [], [] => True
             | sub :: subs', j' :: js' => exact_shape sub j' /\ aligned subs' js'
             | _, _ => False
             end) subs js
      | _ => False
      end
  | SOther => False
  end.

(** The field types whose coercion returns [j] itself. *)
Definition returns_json (t : field_type) : Prop :=
  match t with
  | TPrim _ | TLiteral _ => True
  | _ => False
  end.

(** The string leaves of a schema that name a field. *)
Definition field_leaves (names : list string) (sch : schema) : list string :=
  List.filter (fun s => bool_decide (s ∈ names)) (schema_strings sch).

(** ** Example classes *)

(** The class of the examples: schema [["kind_a", "value"]] and one field
    [value: int]. *)
Definition kind_a_schema : schema := SSeq [SStr "kind_a"; SStr "value"].

Definition KindA : class := Class "KindA" kind_a_schema [("value", TPrim PInt)].

(** A class whose schema starts with the integer literal 1. *)
Definition Tagged1 : class :=
  Class "Tagged1" (SSeq [SInt 1; SStr "value"]) [("value", TPrim PInt)].

(** Classes for the examples: a point, and a shape that holds a name, a
    list of points and a fill that is the word [none] or a colour
    number. *)
Definition Point : class :=
  Class "Point" (SSeq [SStr "point"; SStr "x"; SStr "y"])
    [("x", TPrim PInt); ("y", TPrim PInt)].

Definition Shape : class :=
  Class "Shape"
    (SSeq [SStr "shape"; SInt 1; SSeq [SStr "name"; SStr "points"]; SStr "fill"])
    [("name", TPrim PStr);
     ("points", TList (TClass Point));
     ("fill", TUnion [TLiteral [LStr "none"]; TPrim PInt])].

Definition point (x y : Z) : value := VObj Point [("x", VInt x); ("y", VInt y)].

Definition triangle : value :=
  VObj Shape [("name", VStr "triangle");
              ("points", VList [point 0 0; point 4 0; point 0 3]);
              ("fill", VInt 7)].

Definition triangle_json : json :=
  JList [JStr "shape"; JInt 1;
         JList [JStr "triangle";
                JList [JList [JStr "point"; JInt 0; JInt 0];
                       JList [JStr "point"; JInt 4; JInt 0];
                       JList [JStr "point"; JInt 0; JInt 3]]];
         JInt 7].

(** A class with a field annotated as a dict, and one with a tuple. *)
Definition Bag : class :=
  Class "Bag" (SSeq [SStr "bag"; SStr "counts"])
    [("counts", TDict (TPrim PStr) (TPrim PInt))].

Definition Pair : class :=
  Class "Pair" (SSeq [SStr "pair"; SStr "both"])
    [("both", TTuple [TPrim PInt; TPrim PInt])].

(** ** Induction principles *)

(** Induction over field types and over schemas, through the lists they
    are nested in. *)
Section NestedInduction.
Variable P : field_type -> Prop.
Hypothesis Hprim : forall p, P (TPrim p).
Hypothesis Hliteral : forall args, P (TLiteral args).
Hypothesis Hunion : forall args, Forall P args -> P (TUnion args).
Hypothesis Hlist : forall arg, P arg -> P (TList arg).
Hypothesis Htuple : forall args, Forall P args -> P (TTuple args).
Hypothesis Hdict : forall key val, P key -> P val -> P (TDict key val).
Hypothesis Hclass : forall name sch annotations,
    Forall (fun kt => P (snd kt)) annotations ->
    P (TClass (Class name sch annotations)).
Hypothesis Hother : P TOther.

Fixpoint field_type_nested_ind (t : field_type) : P t :=
  match t with
  | TPrim p => Hprim p
  | TLiteral args => Hliteral args
  | TUnion args =>
      Hunion args
        ((fix all (l : list field_type) : Forall P l :=
            match l with
            | [] => List.Forall_nil P
            | t' :: l' => List.Forall_cons P t' l' (field_type_nested_ind t') (all l')
            end) args)
  | TList arg => Hlist arg (field_type_nested_ind arg)
  | TTuple args =>
      Htuple args
        ((fix all (l : list field_type) : Forall P l :=
            match l with
            | [] => List.Forall_nil P
            | t' :: l' => List.Forall_cons P t' l' (field_type_nested_ind t') (all l')
            end) args)
  | TDict key val =>
      Hdict key val (field_type_nested_ind key) (field_type_nested_ind val)
  | TClass (Class name sch annotations) =>
      Hclass name sch annotations
        ((fix all (l : list (string * field_type))
            : Forall (fun kt => P (snd kt)) l :=
            match l with
            | [] => List.Forall_nil _
            | kt :: l' =>
                List.Forall_cons (fun kt => P (snd kt)) kt l'
                  (field_type_nested_ind (snd kt)) (all l')
            end) annotations)
  | TOther => Hother
  end.
End NestedInduction.

Section SchemaInduction.
Variable P : schema -> Prop.
Hypothesis Hstr : forall s, P (SStr s).
Hypothesis Hint : forall z, P (SInt z).
Hypothesis Hbool : forall b, P (SBool b).
Hypothesis Hseq : forall subs, Forall P subs -> P (SSeq subs).
Hypothesis Hother : P SOther.

Fixpoint schema_nested_ind (sch : schema) : P sch :=
  match sch with
  | SStr s => Hstr s
  | SInt z => Hint z
  | SBool b => Hbool b
  | SSeq subs =>
      Hseq subs
        ((fix all (l : list schema) : Forall P l :=
            match l with
            | [] => List.Forall_nil P
            | s :: l' => List.Forall_cons P s l' (schema_nested_ind s) (all l')
            end) subs)
  | SOther => Hother
  end.
End SchemaInduction.

Section JsonInduction.
Variable P : json -> Prop.
Hypothesis Hstr : forall s, P (JStr s).
Hypothesis Hint : forall z, P (JInt z).
Hypothesis Hbool : forall b, P (JBool b).
Hypothesis Hlist : forall l, Forall P l -> P (JList l).
Hypothesis Hdict : forall d, Forall (fun kv => P (snd kv)) d -> P (JDict d).

Fixpoint json_nested_ind (j : json) : P j :=
  match j with
  | JStr s => Hstr s
  | JInt z => Hint z
  | JBool b => Hbool b
  | JList l =>
      Hlist l
        ((fix all (l : list json) : Forall P l :=
            match l with
            | [] => List.Forall_nil P
            | j' :: l' => List.Forall_cons P j' l' (json_nested_ind j') (all l')
            end) l)
  | JDict d =>
      Hdict d
        ((fix all (d : list (string * json)) : Forall (fun kv => P (snd kv)) d :=
            match d with
            | [] => List.Forall_nil _
            | kv :: d' =>
                List.Forall_cons (fun kv => P (snd kv)) kv d'
                  (json_nested_ind (snd kv)) (all d')
            end) d)
  end.
End JsonInduction.

(** ** Equations of the definitions *)

Lemma comprehension_ext {A B} (f g : A -> result B) (l : list A) :
  (forall x, In x l -> f x = g x) -> comprehension f l = comprehension g l.
Proof.
  induction l as [|x l IH]; intros Hfg; simpl; [reflexivity|].
  rewrite (Hfg x) by (left; reflexivity).
  rewrite IH by (intros y Hy; apply Hfg; right; exact Hy).
  reflexivity.
Qed.

Lemma comprehension_app {A B} (f : A -> result B) (l1 l2 : list A) :
  comprehension f (l1 ++ l2) =
  (do ys1 <- comprehension f l1; do ys2 <- comprehension f l2; Ok (ys1 ++ ys2)).
Proof.
  induction l1 as [|x l1 IH]; simpl.
  - destruct (comprehension f l2); reflexivity.
  - destruct (f x); simpl; [|reflexivity].
    rewrite IH. destruct (comprehension f l1); simpl; [|reflexivity].
    destruct (comprehension f l2); reflexivity.
Qed.

Lemma lookup_field_map {A B} (f : A -> B) name (fields : list (string * A)) :
  lookup_field name (map (fun kt => (fst kt, f (snd kt))) fields) =
  option_map f (lookup_field name fields).
Proof.
  induction fields as [|[k a] fields IH]; simpl; [reflexivity|].
  destruct (String.eqb name k); [reflexivity | exact IH].
Qed.

Lemma lookup_field_None {A} name (fields : list (string * A)) :
  lookup_field name fields = None <-> ~ In name (map fst fields).
Proof.
  induction fields as [|[k a] fields IH]; simpl; [tauto|].
  destruct (String.eqb_spec name k) as [->|Hne].
  - split; [discriminate | intros H; exfalso; apply H; left; reflexivity].
  - rewrite IH. split; [intros H [Heq|Hin]; [congruence|tauto] | tauto].
Qed.

(** The sequence branch of the matcher, with [zip] as [combine]. *)
Lemma match_schema_seq coerce subs j :
  match_schema coerce (SSeq subs) j =
  (do js <- py_iter j;
   do maps <- comprehension (fun p => match_schema coerce (snd p) (fst p))
                (combine js subs);
   Ok (chain_map maps)).
Proof.
  simpl. destruct (py_iter j) as [js|e]; simpl; [|reflexivity].
  f_equal. revert js.
  induction subs as [|sub subs IH]; intros [|sub_j js]; simpl; try reflexivity.
  rewrite IH. reflexivity.
Qed.

Lemma from_json_with_match_seq j subs fields :
  _from_json_with_match j (SSeq subs) fields =
  (do js <- py_iter j;
   do maps <- comprehension
                (fun p => _from_json_with_match (fst p) (snd p) fields)
                (combine js subs);
   Ok (chain_map maps)).
Proof. unfold _from_json_with_match. apply match_schema_seq. Qed.

Lemma from_json_with_match_str j s fields :
  _from_json_with_match j (SStr s) fields =
  match lookup_field s fields with
  | Some t => do v <- _field_from_json j t; Ok {[ s := v ]}
  | None => if str_eq_json s j then Ok ∅ else Raise LiteralMismatch
  end.
Proof.
  unfold _from_json_with_match, coercers. simpl.
  rewrite (lookup_field_map (fun t j => _field_from_json j t)).
  destruct (lookup_field s fields); reflexivity.
Qed.

(** The last branch of the coercer is the class method [from_json]. *)
Lemma field_from_json_class j cls :
  _field_from_json j (TClass cls) = from_json cls j.
Proof. destruct cls as [name sch annotations]. reflexivity. Qed.

Lemma field_from_json_union j args :
  _field_from_json j (TUnion args) =
  first_success (map (fun t => _field_from_json j t) args).
Proof. reflexivity. Qed.

Lemma fields_to_json_obj cls attrs :
  _fields_to_json (VObj cls attrs) = to_json (VObj cls attrs).
Proof. reflexivity. Qed.

Lemma chain_map_lookup (maps : list (gmap string value)) k :
  chain_map maps !! k =
  foldr (fun m acc => match m !! k with Some v => Some v | None => acc end)
    None maps.
Proof.
  induction maps as [|m maps IH]; simpl.
  - apply lookup_empty.
  - rewrite lookup_union. rewrite IH.
    destruct (m !! k) as [v|]; simpl.
    + destruct (foldr _ None maps); reflexivity.
    + destruct (foldr _ None maps); reflexivity.
Qed.

(** ** The coercer *)

(** C10: whatever the JSON value and whichever primitive (str, int or
    bool) the field is annotated with, the coercer returns the value as it
    is, without looking at its kind; so an integer passes for a field
    annotated [str]. *)
Theorem primitive_returned_unchecked :
  (forall (j : json) (p : prim), _field_from_json j (TPrim p) = Ok (inject j)) /\
  _field_from_json (JInt 5) (TPrim PStr) = Ok (VInt 5).
Proof. split; [intros j p|]; reflexivity. Qed.

(** C8: coercing any JSON value against a field annotated as a dict
    raises, whatever the key and value types: the branch is [assert
    False]. *)
Theorem dict_field_always_fails (j : json) (key val : field_type) :
  _field_from_json j (TDict key val) = Raise AssertionFailed.
Proof. reflexivity. Qed.

(** C5: coercing a JSON array against a tuple type whose number of
    element types differs from the length of the array raises the
    assertion error; elements are not dropped to make it fit. *)
Theorem tuple_arity_enforced (js : list json) (args : list field_type) :
  length js <> length args ->
  _field_from_json (JList js) (TTuple args) = Raise AssertionFailed.
Proof.
  intros Hlen. simpl.
  destruct (Nat.eqb_spec (length js) (length args)) as [Heq|_];
    [contradiction | reflexivity].
Qed.

Lemma tuple_arity_enforced_witness :
  length [JInt 1; JInt 2; JInt 3] <> length [TPrim PInt; TPrim PInt] /\
  _field_from_json (JList [JInt 1; JInt 2; JInt 3])
    (TTuple [TPrim PInt; TPrim PInt]) = Raise AssertionFailed.
Proof.
  split; [simpl; lia|].
  apply (tuple_arity_enforced [JInt 1; JInt 2; JInt 3] [TPrim PInt; TPrim PInt]).
  simpl; lia.
Defined.

(** Values that have no length raise as well, before the assertion. *)
Lemma tuple_without_len (j : json) (args : list field_type) :
  py_len j <> Ok (length args) ->
  succeeds (_field_from_json j (TTuple args)) = false.
Proof.
  intros Hlen. simpl. destruct (py_len j) as [n|e]; simpl; [|reflexivity].
  destruct (Nat.eqb_spec n (length args)) as [->|_]; [congruence | reflexivity].
Qed.

(** C4, at the input [[1, 2]] against [Tuple[int, int]]: the coercer
    returns a generator object that still holds both pairs; no element has
    been coerced, and the result is not the tuple [(1, 2)].  The same call
    succeeds when an element does not fit its type, and rendering the
    result raises. *)
Theorem tuple_coercion_returns_generator :
  _field_from_json (JList [JInt 1; JInt 2]) (TTuple [TPrim PInt; TPrim PInt]) =
    Ok (VGen [(JInt 1, TPrim PInt); (JInt 2, TPrim PInt)]) /\
  _field_from_json (JList [JInt 1; JInt 2]) (TTuple [TPrim PInt; TPrim PInt]) <>
    Ok (VTuple [VInt 1; VInt 2]) /\
  _field_from_json (JList [JInt 5]) (TTuple [TLiteral [LInt 0]]) =
    Ok (VGen [(JInt 5, TLiteral [LInt 0])]) /\
  _field_from_json (JInt 5) (TLiteral [LInt 0]) = Raise LiteralSetMismatch /\
  _fields_to_json (VGen [(JInt 1, TPrim PInt); (JInt 2, TPrim PInt)]) =
    Raise AttributeMissing.
Proof. repeat split; try reflexivity. discriminate. Qed.

(** What the generator yields once it is iterated: the coercion of each
    element against the element type at its position. *)
Lemma tuple_generator_exhaust (js : list json) (args : list field_type) :
  length js = length args ->
  (do g <- _field_from_json (JList js) (TTuple args); exhaust g) =
  comprehension (fun p => _field_from_json (fst p) (snd p)) (combine js args).
Proof.
  intros Hlen. simpl. rewrite Hlen, Nat.eqb_refl. reflexivity.
Qed.

Lemma first_success_app_fail (pre rest : list (result value)) :
  Forall (fun r => succeeds r = false) pre ->
  first_success (pre ++ rest) = first_success rest.
Proof.
  induction 1 as [|r pre Hr _ IH]; simpl; [reflexivity|].
  destruct r; [discriminate | exact IH].
Qed.

Lemma first_success_raise (tries : list (result value)) (e : error) :
  first_success tries = Raise e ->
  e = UnionExhausted /\ Forall (fun r => succeeds r = false) tries.
Proof.
  induction tries as [|r tries IH]; simpl.
  - intros [= <-]. split; [reflexivity | constructor].
  - destruct r as [v|e']; [discriminate|].
    intros H. destruct (IH H) as [-> Hall]. split; [reflexivity|].
    constructor; [reflexivity | exact Hall].
Qed.

(** C6: a union is tried in declared order.  If the alternatives before
    [t] all raise on [j] and [t] returns [v], the union returns [v],
    whatever the later alternatives would do; the union raises only when
    every alternative raises, and then with the union error; on the union
    of [Literal[0, 1]] and [Literal[1, 2]] the value 1 gets the result of
    the first. *)
Theorem union_first_alternative_wins (j : json) (args : list field_type) :
  (forall pre t post v,
      args = pre ++ t :: post ->
      Forall (fun t' => succeeds (_field_from_json j t') = false) pre ->
      _field_from_json j t = Ok v ->
      _field_from_json j (TUnion args) = Ok v) /\
  (forall e,
      _field_from_json j (TUnion args) = Raise e ->
      e = UnionExhausted /\
      Forall (fun t' => succeeds (_field_from_json j t') = false) args) /\
  (Forall (fun t' => succeeds (_field_from_json j t') = false) args ->
   _field_from_json j (TUnion args) = Raise UnionExhausted) /\
  _field_from_json (JInt 1)
    (TUnion [TLiteral [LInt 0; LInt 1]; TLiteral [LInt 1; LInt 2]]) =
  _field_from_json (JInt 1) (TLiteral [LInt 0; LInt 1]).
Proof.
  rewrite field_from_json_union. repeat split.
  - intros pre t post v -> Hpre Ht.
    rewrite map_app. rewrite first_success_app_fail.
    + simpl. rewrite Ht. reflexivity.
    + apply Forall_map. exact Hpre.
  - apply first_success_raise in H. tauto.
  - apply first_success_raise in H. destruct H as [_ H].
    apply Forall_map in H. exact H.
  - intros Hall. rewrite <- (app_nil_r (map _ args)).
    rewrite first_success_app_fail; [reflexivity|].
    apply Forall_map. exact Hall.
Qed.

Lemma union_first_alternative_wins_witness :
  _field_from_json (JStr "ab")
    (TUnion [TLiteral [LStr "a"]; TList (TPrim PStr); TPrim PStr]) =
  Ok (VList [VStr "a"; VStr "b"]).
Proof.
  destruct (union_first_alternative_wins (JStr "ab")
              [TLiteral [LStr "a"]; TList (TPrim PStr); TPrim PStr])
    as [Hfirst _].
  apply (Hfirst [TLiteral [LStr "a"]] (TList (TPrim PStr)) [TPrim PStr]).
  - reflexivity.
  - repeat constructor.
  - reflexivity.
Defined.

(** ** The matcher *)

(** C2, at the schema leaf [1] against the JSON value [2]: the matcher
    returns the empty binding although the values differ, for integer and
    for boolean leaves alike, so [from_json] of a class whose schema is
    [[1, "value"]] takes [[2, 5]].  A string leaf is compared. *)
Theorem int_literal_leaf_not_compared :
  (forall fields, _from_json_with_match (JInt 2) (SInt 1) fields = Ok ∅) /\
  (forall fields,
      _from_json_with_match (JBool false) (SBool true) fields = Ok ∅) /\
  from_json Tagged1 (JList [JInt 2; JInt 5]) =
    Ok (VObj Tagged1 [("value", VInt 5)]) /\
  _from_json_with_match (JStr "2") (SStr "1") [] = Raise LiteralMismatch.
Proof. repeat split. Qed.

(** Whatever the JSON value, an integer or boolean leaf binds nothing and
    never raises. *)
Lemma int_bool_leaf_always_matches (j : json) fields :
  (forall z, _from_json_with_match j (SInt z) fields = Ok ∅) /\
  (forall b, _from_json_with_match j (SBool b) fields = Ok ∅).
Proof. split; reflexivity. Qed.

(** C3 as stated fails: a value of three elements matches a schema of
    two, and the third element is dropped. *)
Lemma longer_value_matches :
  length [JStr "kind_a"; JInt 5; JInt 6] <> length [SStr "kind_a"; SStr "value"] /\
  _from_json_with_match (JList [JStr "kind_a"; JInt 5; JInt 6]) kind_a_schema
    (__annotations__ KindA) = Ok {[ "value" := VInt 5 ]} /\
  from_json KindA (JList [JStr "kind_a"; JInt 5; JInt 6]) =
    Ok (VObj KindA [("value", VInt 5)]).
Proof. split; [simpl; lia | split; reflexivity]. Qed.

Lemma combine_take {A B} (l : list A) (l' : list B) :
  combine (take (min (length l) (length l')) l)
          (take (min (length l) (length l')) l') = combine l l'.
Proof.
  revert l'. induction l as [|x l IH]; intros [|y l']; simpl; try reflexivity.
  f_equal. apply IH.
Qed.

(** C3 as amended: the matcher pairs sub-schemas and elements by position
    up to the shorter of the two: what either has beyond that length plays
    no part in the result. *)
Theorem sequence_match_truncates (js : list json) (subs : list schema) fields :
  let n := min (length js) (length subs) in
  _from_json_with_match (JList js) (SSeq subs) fields =
  _from_json_with_match (JList (take n js)) (SSeq (take n subs)) fields.
Proof.
  intros n. rewrite !from_json_with_match_seq. simpl.
  unfold n. rewrite combine_take. reflexivity.
Qed.

(** A shorter value matches too when the missing positions are literals. *)
Lemma shorter_value_matches :
  from_json (Class "Unit" (SSeq [SStr "unit"]) []) (JList []) =
  Ok (VObj (Class "Unit" (SSeq [SStr "unit"]) []) []).
Proof. reflexivity. Qed.

Lemma chain_map_first (before after : list (gmap string value)) m k v :
  Forall (fun m' : gmap string value => m' !! k = None) before ->
  m !! k = Some v ->
  chain_map (before ++ m :: after) !! k = Some v.
Proof.
  intros Hbefore Hm. rewrite chain_map_lookup.
  induction Hbefore as [|m' before Hm' _ IH]; simpl.
  - rewrite Hm. reflexivity.
  - rewrite Hm'. exact IH.
Qed.

(** C7: when the siblings of a sequence schema have matched, a field name
    bound by several of them keeps the value of the leftmost one: if the
    sibling giving [m] binds [k] to [v] and no sibling before it binds
    [k], the mapping returned for the sequence binds [k] to [v]. *)
Theorem earliest_sibling_binding_wins
    (js : list json) (subs : list schema) fields
    (before after : list (gmap string value)) (m : gmap string value)
    (k : string) (v : value) :
  comprehension (fun p => _from_json_with_match (fst p) (snd p) fields)
    (combine js subs) = Ok (before ++ m :: after) ->
  Forall (fun m' : gmap string value => m' !! k = None) before ->
  m !! k = Some v ->
  exists bindings,
    _from_json_with_match (JList js) (SSeq subs) fields = Ok bindings /\
    bindings !! k = Some v.
Proof.
  intros Hmaps Hbefore Hm.
  exists (chain_map (before ++ m :: after)). split.
  - rewrite from_json_with_match_seq. simpl. rewrite Hmaps. reflexivity.
  - apply chain_map_first; assumption.
Qed.

Lemma earliest_sibling_binding_wins_witness :
  exists bindings,
    _from_json_with_match (JList [JStr "tag"; JInt 1; JInt 2])
      (SSeq [SStr "tag"; SStr "x"; SStr "x"]) [("x", TPrim PInt)] = Ok bindings /\
    bindings !! "x" = Some (VInt 1).
Proof.
  apply (earliest_sibling_binding_wins
           [JStr "tag"; JInt 1; JInt 2] [SStr "tag"; SStr "x"; SStr "x"]
           [("x", TPrim PInt)]
           [∅] [{[ "x" := VInt 2 ]}] {[ "x" := VInt 1 ]} "x" (VInt 1)).
  - reflexivity.
  - repeat constructor.
  - reflexivity.
Defined.

Lemma kind_a_bindings fields t v :
  lookup_field "kind_a" fields = None ->
  lookup_field "value" fields = Some t ->
  _field_from_json (JInt 5) t = Ok v ->
  _from_json_with_match (JList [JStr "kind_a"; JInt 5]) kind_a_schema fields =
  Ok {[ "value" := v ]}.
Proof.
  intros Hkind Hvalue Hv. unfold kind_a_schema.
  rewrite from_json_with_match_seq.
  cbn [py_iter combine comprehension rbind fst snd].
  rewrite !from_json_with_match_str, Hkind, Hvalue.
  cbn [str_eq_json String.eqb Ascii.eqb Bool.eqb rbind].
  rewrite Hv. cbn [rbind chain_map foldr].
  rewrite (left_id_L ∅ (∪)), (right_id_L ∅ (∪)). reflexivity.
Qed.

Lemma construct_single cls k v :
  map fst (__annotations__ cls) = [k] ->
  construct cls {[ k := v ]} = Ok (VObj cls [(k, v)]).
Proof.
  intros Hnames. unfold construct. rewrite Hnames.
  rewrite map_to_list_singleton. simpl.
  rewrite bool_decide_true by (apply list_elem_of_singleton; reflexivity).
  simpl. rewrite lookup_singleton_eq. reflexivity.
Qed.

(** C9: a class whose schema is [["kind_a", "value"]], with [value] an
    annotated field and [kind_a] not one, rejects [["kind_b", 5]] with the
    literal error whatever its fields are.  It takes [["kind_a", 5]]: the
    matcher binds [value] to what the type of the field makes of 5, and
    [from_json] returns the instance when [value] is the only field. *)
Theorem kind_a_discriminates (name : string)
    (fields : list (string * field_type)) (t : field_type) :
  lookup_field "kind_a" fields = None ->
  lookup_field "value" fields = Some t ->
  let cls := Class name kind_a_schema fields in
  from_json cls (JList [JStr "kind_b"; JInt 5]) = Raise LiteralMismatch /\
  (forall v, _field_from_json (JInt 5) t = Ok v ->
     _from_json_with_match (JList [JStr "kind_a"; JInt 5]) kind_a_schema fields =
       Ok {[ "value" := v ]} /\
     (map fst fields = ["value"] ->
      from_json cls (JList [JStr "kind_a"; JInt 5]) =
        Ok (VObj cls [("value", v)]))).
Proof.
  intros Hkind Hvalue cls. split.
  - unfold from_json, cls. cbn [_schema __annotations__]. unfold kind_a_schema.
    rewrite from_json_with_match_seq.
    cbn [py_iter combine comprehension rbind fst snd].
    rewrite from_json_with_match_str, Hkind. reflexivity.
  - intros v Hv. split.
    + apply (kind_a_bindings fields t v); assumption.
    + intros Hnames. unfold from_json, cls. cbn [_schema __annotations__].
      rewrite (kind_a_bindings fields t v) by assumption. simpl.
      apply construct_single. exact Hnames.
Qed.

Lemma kind_a_discriminates_witness :
  from_json KindA (JList [JStr "kind_b"; JInt 5]) = Raise LiteralMismatch /\
  from_json KindA (JList [JStr "kind_a"; JInt 5]) =
    Ok (VObj KindA [("value", VInt 5)]).
Proof.
  destruct (kind_a_discriminates "KindA" [("value", TPrim PInt)] (TPrim PInt))
    as [Hreject Haccept]; [reflexivity | reflexivity |].
  split; [exact Hreject|].
  destruct (Haccept (VInt 5)) as [_ Hinstance]; [reflexivity|].
  apply Hinstance. reflexivity.
Defined.

(** ** Round trip *)

Lemma has_type_class name sch annotations v :
  has_type (TClass (Class name sch annotations)) v <->
  exists attrs,
    v = VObj (Class name sch annotations) attrs /\
    NoDup (map fst annotations) /\
    schema_walkable sch = true /\
    (forall k, In k (map fst annotations) -> In k (schema_strings sch)) /\
    typed_fields annotations attrs.
Proof.
  assert (Htyped : forall anns attrs,
    (fix typed (annotations : list (string * field_type))
         (attrs : list (string * value)) : Prop :=
       match annotations, attrs with
       | [], [] => True
       | (k, t') :: annotations', (k', v') :: attrs' =>
           k' = k /\ has_type t' v' /\ typed annotations' attrs'
       | _, _ => False
       end) anns attrs <-> typed_fields anns attrs).
  { induction anns as [|[k t'] anns IH]; intros [|[k' v'] attrs].
    - split; [constructor | trivial].
    - split; [contradiction | inversion 1].
    - split; [contradiction | inversion 1].
    - rewrite IH. unfold typed_fields. split.
      + intros (Hk & Ht & Hrest). constructor; [split; assumption | exact Hrest].
      + inversion 1 as [|? ? ? ? [Hk Ht] Hrest]; subst. auto. }
  destruct v; simpl; try (split; [contradiction | intros (attrs & [=] & _)]).
  rewrite Htyped. split.
  - intros (-> & Hnd & Hw & Hcov & Hf). exists attrs. auto.
  - intros (attrs' & [= -> ->] & Hnd & Hw & Hcov & Hf). auto.
Qed.

Lemma has_type_union_cons t' args v :
  has_type (TUnion (t' :: args)) v <->
  has_type t' v \/ (accepts t' v = false /\ has_type (TUnion args) v).
Proof. reflexivity. Qed.

Lemma lookup_field_Some_In {A} name (fields : list (string * A)) a :
  lookup_field name fields = Some a -> In name (map fst fields).
Proof.
  intros H. destruct (in_dec string_dec name (map fst fields)) as [Hin|Hnin];
    [exact Hin|].
  apply lookup_field_None in Hnin. congruence.
Qed.

Lemma chain_map_lookup_Some (maps : list (gmap string value)) k v :
  chain_map maps !! k = Some v -> exists m, In m maps /\ m !! k = Some v.
Proof.
  rewrite chain_map_lookup. induction maps as [|m maps IH]; simpl; [discriminate|].
  destruct (m !! k) as [v'|] eqn:Hm.
  - intros [= ->]. exists m. auto.
  - intros H. destruct (IH H) as (m' & Hin & Hm'). exists m'. auto.
Qed.

Lemma chain_map_is_Some (maps : list (gmap string value)) k :
  Exists (fun m : gmap string value => is_Some (m !! k)) maps ->
  is_Some (chain_map maps !! k).
Proof.
  rewrite chain_map_lookup. induction maps as [|m maps IH]; simpl.
  - inversion 1.
  - intros Hex. destruct (m !! k) as [v'|] eqn:Hm; [eexists; reflexivity|].
    apply IH. inversion Hex as [? ? [v Hv]|]; subst; [congruence | assumption].
Qed.

(** Walking the schema of one class in both directions, given that every
    field comes back from its rendering. *)
Section ClassRoundTrip.
Variable annotations : list (string * field_type).
Variable attrs : list (string * value).

Hypothesis fields_round_trip :
  forall k t, lookup_field k annotations = Some t ->
    exists v j, lookup_field k attrs = Some v /\
                _fields_to_json v = Ok j /\ _field_from_json j t = Ok v.

Let names := map fst annotations.
Let rendered := map (fun kv => (fst kv, _fields_to_json (snd kv))) attrs.

Lemma schema_round_trip (sch : schema) :
  schema_walkable sch = true ->
  exists j b,
    project names rendered sch = Ok j /\
    _from_json_with_match j sch annotations = Ok b /\
    sound attrs b /\
    (forall k, In k (schema_strings sch) -> In k names -> is_Some (b !! k)).
Proof.
  induction sch as [s|z|b|subs IH|] using schema_nested_ind; intros Hwalk.
  - (* a string: a field or a literal *)
    destruct (lookup_field s annotations) as [t|] eqn:Hfield.
    + destruct (fields_round_trip s t Hfield) as (v & j & Hattr & Hrender & Hcoerce).
      exists j, {[ s := v ]}. repeat split.
      * simpl. rewrite bool_decide_true
          by (apply list_elem_of_In; eapply lookup_field_Some_In; exact Hfield).
        unfold rendered. rewrite (lookup_field_map _fields_to_json), Hattr.
        exact Hrender.
      * rewrite from_json_with_match_str, Hfield, Hcoerce. reflexivity.
      * intros k v' Hk. apply lookup_singleton_Some in Hk as [<- <-]. exact Hattr.
      * intros k [<-|[]] _. rewrite lookup_singleton_eq. eexists; reflexivity.
    + exists (JStr s), ∅. repeat split.
      * simpl. rewrite bool_decide_false; [reflexivity|].
        rewrite list_elem_of_In. apply lookup_field_None. exact Hfield.
      * rewrite from_json_with_match_str, Hfield. simpl.
        rewrite String.eqb_refl. reflexivity.
      * intros k v Hk. rewrite lookup_empty in Hk. discriminate.
      * intros k [<-|[]] Hin. apply lookup_field_None in Hfield. contradiction.
  - exists (JInt z), ∅. repeat split.
    + intros k v Hk. rewrite lookup_empty in Hk. discriminate.
    + intros k [].
  - exists (JBool b), ∅. repeat split.
    + intros k v Hk. rewrite lookup_empty in Hk. discriminate.
    + intros k [].
  - (* a sequence: the siblings one by one *)
    assert (Hsubs : exists js maps,
      comprehension (project names rendered) subs = Ok js /\
      comprehension (fun p => _from_json_with_match (fst p) (snd p) annotations)
        (combine js subs) = Ok maps /\
      Forall (sound attrs) maps /\
      (forall k, In k (flat_map schema_strings subs) -> In k names ->
         Exists (fun m : gmap string value => is_Some (m !! k)) maps)).
    { simpl in Hwalk. clear -IH Hwalk.
      induction IH as [|sub subs Hsub _ IHsubs].
      - exists [], []. repeat split; [constructor | intros k []].
      - simpl in Hwalk. apply andb_prop in Hwalk as [Hw1 Hw2].
        destruct (Hsub Hw1) as (j & b & Hp & Hm & Hs & Hc).
        destruct (IHsubs Hw2) as (js & maps & Hps & Hms & Hss & Hcs).
        exists (j :: js), (b :: maps). repeat split.
        + cbn [comprehension]. rewrite Hp, Hps. reflexivity.
        + cbn [combine comprehension fst snd]. rewrite Hm, Hms. reflexivity.
        + constructor; assumption.
        + intros k Hk Hin. cbn [flat_map] in Hk. apply in_app_or in Hk as [Hk|Hk].
          * apply Exists_cons_hd. apply Hc; assumption.
          * apply Exists_cons_tl. apply Hcs; assumption. }
    destruct Hsubs as (js & maps & Hps & Hms & Hss & Hcs).
    exists (JList js), (chain_map maps). repeat split.
    + cbn [project]. change (comprehension _ subs)
        with (comprehension (project names rendered) subs).
      rewrite Hps. reflexivity.
    + rewrite from_json_with_match_seq. cbn [py_iter rbind].
      rewrite Hms. reflexivity.
    + intros k v Hk. apply chain_map_lookup_Some in Hk as (m & Hin & Hm).
      rewrite List.Forall_forall in Hss. apply (Hss m Hin k v Hm).
    + intros k Hk Hin. apply chain_map_is_Some. apply Hcs; assumption.
  - discriminate.
Qed.
End ClassRoundTrip.

Lemma comprehension_bindings (b : gmap string value) (attrs : list (string * value)) :
  NoDup (map fst attrs) ->
  (forall k v, lookup_field k attrs = Some v -> b !! k = Some v) ->
  comprehension (fun k => match b !! k with
                          | Some v => Ok (k, v)
                          | None => Raise ConstructorMismatch
                          end) (map fst attrs) = Ok attrs.
Proof.
  induction attrs as [|[k v] attrs IH]; intros Hnd Hb; [reflexivity|].
  cbn [map fst comprehension]. cbn [map fst] in Hnd.
  apply NoDup_cons in Hnd as [Hnotin Hnd].
  rewrite (Hb k v) by (simpl; rewrite String.eqb_refl; reflexivity).
  cbn [rbind]. rewrite IH; [reflexivity | exact Hnd |].
  intros k' v' Hk'. apply Hb. simpl.
  destruct (String.eqb_spec k' k) as [->|_]; [|exact Hk'].
  exfalso. apply Hnotin. apply list_elem_of_In.
  eapply lookup_field_Some_In. exact Hk'.
Qed.

Lemma construct_instance cls attrs (b : gmap string value) :
  map fst attrs = map fst (__annotations__ cls) ->
  NoDup (map fst attrs) ->
  sound attrs b ->
  (forall k, In k (map fst attrs) -> is_Some (b !! k)) ->
  construct cls b = Ok (VObj cls attrs).
Proof.
  intros Hnames Hnd Hsound Hcover. unfold construct. rewrite <- Hnames.
  assert (Hkeys : forallb (fun k => bool_decide (k ∈ map fst attrs))
                    (map fst (map_to_list b)) = true).
  { apply forallb_forall. intros k Hk. apply bool_decide_eq_true.
    apply in_map_iff in Hk as ([k' v] & <- & Hkv).
    apply list_elem_of_In, elem_of_map_to_list in Hkv.
    apply list_elem_of_In. eapply lookup_field_Some_In. apply Hsound. exact Hkv. }
  rewrite Hkeys. rewrite comprehension_bindings; [reflexivity | exact Hnd |].
  intros k v Hk. destruct (Hcover k) as [v' Hv'].
  - eapply lookup_field_Some_In. exact Hk.
  - rewrite Hv'. apply Hsound in Hv'. congruence.
Qed.

Lemma typed_fields_names annotations attrs :
  typed_fields annotations attrs -> map fst attrs = map fst annotations.
Proof.
  induction 1 as [|[k t] [k' v] anns attrs [Hk _] _ IH]; [reflexivity|].
  simpl in *. subst. f_equal. exact IH.
Qed.

(** Every value comes back from its rendering through the coercer of its
    type. *)
Lemma field_round_trip (t : field_type) :
  forall v, has_type t v ->
    exists j, _fields_to_json v = Ok j /\ _field_from_json j t = Ok v.
Proof.
  induction t as [p|args|args IH|arg IH|args _|key val _ _|name sch annotations IH|]
    using field_type_nested_ind; intros v Hv.
  - destruct p, v; simpl in Hv; try contradiction; eexists; split; reflexivity.
  - destruct v; simpl in Hv; try contradiction;
      (eexists; split; [reflexivity | simpl; rewrite Hv; reflexivity]).
  - (* a union: the alternatives before the one of [v] raise *)
    induction IH as [|t' args Ht' _ IHargs]; [contradiction|].
    apply has_type_union_cons in Hv as [Hv|[Hreject Hv]].
    + destruct (Ht' v Hv) as (j & Hrender & Hcoerce).
      exists j. split; [exact Hrender|].
      rewrite field_from_json_union. cbn [map first_success].
      rewrite Hcoerce. reflexivity.
    + destruct (IHargs Hv) as (j & Hrender & Hcoerce).
      exists j. split; [exact Hrender|].
      rewrite field_from_json_union in *. cbn [map first_success].
      unfold accepts in Hreject. rewrite Hrender in Hreject.
      destruct (_field_from_json j t'); [discriminate | exact Hcoerce].
  - (* a list: element by element *)
    destruct v as [| | |l| | | |]; simpl in Hv; try contradiction.
    assert (Hl : exists js, comprehension _fields_to_json l = Ok js /\
              comprehension (fun sub_j => _field_from_json sub_j arg) js = Ok l).
    { induction Hv as [|v l Hv _ IHl].
      - exists []. split; reflexivity.
      - destruct (IH v Hv) as (j & Hrender & Hcoerce).
        destruct IHl as (js & Hrenders & Hcoerces).
        exists (j :: js). cbn [comprehension].
        rewrite Hrender, Hrenders, Hcoerce, Hcoerces. split; reflexivity. }
    destruct Hl as (js & Hrenders & Hcoerces).
    exists (JList js). split.
    + cbn [_fields_to_json].
      change (comprehension _ l) with (comprehension _fields_to_json l).
      rewrite Hrenders. reflexivity.
    + cbn [_field_from_json py_iter rbind].
      change (comprehension _ js)
        with (comprehension (fun sub_j => _field_from_json sub_j arg) js).
      rewrite Hcoerces. reflexivity.
  - contradiction.
  - contradiction.
  - (* a class: the schema walked both ways, then the constructor *)
    apply has_type_class in Hv as (attrs & -> & Hnd & Hwalk & Hcover & Hfields).
    pose proof (typed_fields_names _ _ Hfields) as Hnames.
    assert (Hround : forall k t, lookup_field k annotations = Some t ->
              exists v j, lookup_field k attrs = Some v /\
                          _fields_to_json v = Ok j /\ _field_from_json j t = Ok v).
    { clear -IH Hfields. induction Hfields as [|[k t] [k' v] anns attrs [Hk Ht] _ IHf].
      - discriminate.
      - simpl in Hk, Ht. subst k'. apply Forall_cons in IH as [IHt IHanns].
        intros k0 t0. simpl. destruct (String.eqb k0 k).
        + intros [= <-]. destruct (IHt v Ht) as (j & Hr & Hc). eauto.
        + apply IHf. exact IHanns. }
    destruct (schema_round_trip annotations attrs Hround sch Hwalk)
      as (j & b & Hproject & Hmatch & Hsound & Hb).
    exists j. split; [exact Hproject|].
    rewrite field_from_json_class. unfold from_json. cbn [_schema __annotations__].
    rewrite Hmatch. cbn [rbind].
    apply construct_instance.
    + exact Hnames.
    + rewrite Hnames. exact Hnd.
    + exact Hsound.
    + intros k Hk. rewrite Hnames in Hk. apply Hb; [apply Hcover|]; exact Hk.
  - contradiction.
Qed.

Example triangle_to_json : to_json triangle = Ok triangle_json.
Proof. reflexivity. Qed.

Example triangle_from_json : from_json Shape triangle_json = Ok triangle.
Proof. vm_compute. reflexivity. Qed.

(** C1 as stated fails: an instance whose field is annotated as a dict is
    rendered, and its rendering is refused. *)
Lemma dict_field_no_round_trip :
  to_json (VObj Bag [("counts", VDict [("a", VInt 1)])]) =
    Ok (JList [JStr "bag"; JDict [("a", JInt 1)]]) /\
  from_json Bag (JList [JStr "bag"; JDict [("a", JInt 1)]]) =
    Raise AssertionFailed.
Proof. split; reflexivity. Qed.

(** C1 as amended: an instance whose fields hold values of their types
    (primitives, literals, unions, lists and instances of such classes,
    [has_type]) is rendered by [to_json], and [from_json] of its class
    returns it from the rendering, field by field. *)
Theorem record_round_trip (cls : class) (x : value) :
  has_type (TClass cls) x ->
  exists j, to_json x = Ok j /\ from_json cls j = Ok x.
Proof.
  intros Hx. destruct (field_round_trip (TClass cls) x Hx) as (j & Hto & Hfrom).
  exists j. rewrite <- field_from_json_class. split; [|exact Hfrom].
  destruct cls as [name sch annotations].
  apply has_type_class in Hx as (attrs & -> & _). exact Hto.
Qed.

Lemma triangle_has_type : has_type (TClass Shape) triangle.
Proof.
  assert (Hpoint : forall x y, has_type (TClass Point) (point x y)).
  { intros x y. simpl. repeat split.
    - apply (bool_decide_unpack _). reflexivity.
    - intros k Hk. simpl in *. tauto. }
  simpl has_type. repeat split.
  - apply (bool_decide_unpack _). reflexivity.
  - intros k Hk. simpl in *. tauto.
  - repeat (apply List.Forall_cons; [apply Hpoint|]). apply List.Forall_nil.
  - right. split; [reflexivity | left; exact I].
Defined.

Lemma record_round_trip_witness :
  exists j, to_json triangle = Ok j /\ from_json Shape j = Ok triangle.
Proof. apply (record_round_trip Shape triangle). exact triangle_has_type. Defined.

(** The tuple branch in a round trip: the instance that comes back holds
    a generator where the tuple was. *)
Lemma tuple_field_no_round_trip :
  to_json (VObj Pair [("both", VTuple [VInt 1; VInt 2])]) =
    Ok (JList [JStr "pair"; JList [JInt 1; JInt 2]]) /\
  from_json Pair (JList [JStr "pair"; JList [JInt 1; JInt 2]]) =
    Ok (VObj Pair [("both", VGen [(JInt 1, TPrim PInt); (JInt 2, TPrim PInt)])]).
Proof. split; reflexivity. Qed.


(** ** Further properties of the renderer and the projector *)

Lemma comprehension_Ok_Forall2 {A B} (f : A -> result B) (l : list A) (ys : list B) :
  comprehension f l = Ok ys <-> Forall2 (fun x y => f x = Ok y) l ys.
Proof.
  revert ys. induction l as [|x l IH]; intros ys; simpl.
  - split; [intros [= <-]; constructor | inversion 1; reflexivity].
  - split.
    + destruct (f x) as [y|e] eqn:Hx; simpl; [|discriminate].
      destruct (comprehension f l) as [ys'|e] eqn:Hl; simpl; [|discriminate].
      intros [= <-]. constructor; [exact Hx | apply IH; reflexivity].
    + inversion 1 as [|? y ? ys' Hx Hl]; subst. rewrite Hx. simpl.
      apply IH in Hl. rewrite Hl. reflexivity.
Qed.

Lemma comprehension_first_error {A B} (f : A -> result B)
    (before after : list A) (x : A) (e : error) :
  Forall (fun a => succeeds (f a) = true) before ->
  f x = Raise e ->
  comprehension f (before ++ x :: after) = Raise e.
Proof.
  intros Hbefore Hx. induction Hbefore as [|a before Ha _ IH]; simpl.
  - rewrite Hx. reflexivity.
  - destruct (f a); [|discriminate]. simpl. rewrite IH. reflexivity.
Qed.

Lemma fields_to_json_inject (j : json) : _fields_to_json (inject j) = Ok j.
Proof.
  induction j as [s|z|b|l IH|d IH] using json_nested_ind; try reflexivity.
  - cbn [inject _fields_to_json].
    change (comprehension _ (map inject l))
      with (comprehension _fields_to_json (map inject l)).
    assert (Hl : comprehension _fields_to_json (map inject l) = Ok l).
    { induction IH as [|j l Hj _ IHl]; [reflexivity|].
      cbn [map comprehension]. rewrite Hj, IHl. reflexivity. }
    rewrite Hl. reflexivity.
  - cbn [inject _fields_to_json].
    assert (Hd : comprehension
                   (fun kv : string * value =>
                      do v <- _fields_to_json (snd kv); Ok (fst kv, v))
                   (map (fun kv => (fst kv, inject (snd kv))) d) = Ok d).
    { induction IH as [|[k j] d Hj _ IHd]; [reflexivity|].
      cbn [map comprehension fst snd] in *. rewrite Hj. cbn [rbind].
      rewrite IHd. reflexivity. }
    rewrite Hd. reflexivity.
Qed.

(** X1: the renderer returns a JSON tree as it is: whatever is made only
    of strings, integers, booleans, lists and dicts is rendered to
    itself, at any depth. *)
Theorem render_json_unchanged (j : json) : _fields_to_json (inject j) = Ok j.
Proof. apply fields_to_json_inject. Qed.

(** X2: projecting a sequence schema gives a JSON array with one element
    for each sub-schema, in order, each the projection of its sub-schema
    against the same object; it fails if and only if one of them fails. *)
Theorem sequence_projection_elementwise (subs : list schema) (obj : value) (j : json) :
  _to_json_with_match (SSeq subs) obj = Ok j <->
  exists js, j = JList js /\
             Forall2 (fun sub j' => _to_json_with_match sub obj = Ok j') subs js.
Proof.
  unfold _to_json_with_match. cbn [project].
  set (f := project _ _). change (comprehension _ subs) with (comprehension f subs).
  split.
  - destruct (comprehension f subs) as [js|e] eqn:Hsubs; simpl; [|discriminate].
    intros [= <-]. exists js. split; [reflexivity|].
    apply comprehension_Ok_Forall2. exact Hsubs.
  - intros (js & -> & Hall). apply comprehension_Ok_Forall2 in Hall.
    rewrite Hall. reflexivity.
Qed.

(** X3: coercing a JSON array against [List[A]] succeeds exactly when
    every element is coerced by [A], and then gives the list of the
    coerced elements, in order and of the same length. *)
Theorem list_coercion_elementwise (js : list json) (arg : field_type) (v : value) :
  _field_from_json (JList js) (TList arg) = Ok v <->
  exists vs, v = VList vs /\
             Forall2 (fun sub_j sub_v => _field_from_json sub_j arg = Ok sub_v) js vs.
Proof.
  cbn [_field_from_json py_iter rbind].
  set (f := fun sub_j => _field_from_json sub_j arg).
  change (comprehension _ js) with (comprehension f js).
  split.
  - destruct (comprehension f js) as [vs|e] eqn:Hjs; simpl; [|discriminate].
    intros [= <-]. exists vs. split; [reflexivity|].
    apply comprehension_Ok_Forall2 in Hjs. exact Hjs.
  - intros (vs & -> & Hall).
    apply (comprehension_Ok_Forall2 f) in Hall. rewrite Hall. reflexivity.
Qed.

(** ** Further properties of the matcher and of [from_json] *)

Lemma Forall2_In_r {A B} (R : A -> B -> Prop) (l : list A) (l' : list B) (y : B) :
  Forall2 R l l' -> In y l' -> exists x, In x l /\ R x y.
Proof.
  induction 1 as [|x y' l l' Hxy _ IH]; [intros []|].
  intros [<-|Hin].
  - exists x. split; [left; reflexivity | exact Hxy].
  - destruct (IH Hin) as (x' & Hx' & HR). exists x'. split; [right|]; assumption.
Qed.

Lemma matcher_keys (j : json) (sch : schema) fields (b : gmap string value) :
  _from_json_with_match j sch fields = Ok b ->
  forall k, is_Some (b !! k) ->
    In k (map fst fields) /\ In k (schema_strings sch).
Proof.
  revert j b.
  induction sch as [s|z|c|subs IH|] using schema_nested_ind; intros j b Hmatch k Hk.
  - rewrite from_json_with_match_str in Hmatch.
    destruct (lookup_field s fields) as [t|] eqn:Hfield.
    + destruct (_field_from_json j t) as [v|e]; [|discriminate].
      injection Hmatch as <-. destruct Hk as [v' Hk].
      apply lookup_singleton_Some in Hk as [<- _]. split; [|left; reflexivity].
      eapply lookup_field_Some_In. exact Hfield.
    + destruct (str_eq_json s j); [|discriminate].
      injection Hmatch as <-. rewrite lookup_empty in Hk.
      destruct Hk as [? [=]].
  - injection Hmatch as <-. rewrite lookup_empty in Hk. destruct Hk as [? [=]].
  - injection Hmatch as <-. rewrite lookup_empty in Hk. destruct Hk as [? [=]].
  - rewrite from_json_with_match_seq in Hmatch.
    destruct (py_iter j) as [js|e]; [|discriminate]. cbn [rbind] in Hmatch.
    destruct (comprehension _ (combine js subs)) as [maps|e] eqn:Hmaps;
      [|discriminate].
    injection Hmatch as <-. destruct Hk as [v Hk].
    apply chain_map_lookup_Some in Hk as (m & Hin & Hm).
    apply comprehension_Ok_Forall2 in Hmaps.
    destruct (Forall2_In_r _ _ _ m Hmaps Hin) as ([sub_j sub] & Hpair & Hsub).
    apply in_combine_r in Hpair. cbn [fst snd] in Hsub.
    rewrite List.Forall_forall in IH.
    destruct (IH sub Hpair sub_j m Hsub k) as [Hfield Hstring];
      [eexists; exact Hm|].
    split; [exact Hfield|]. cbn [schema_strings].
    apply in_flat_map. exists sub. split; assumption.
  - discriminate.
Qed.

(** X4: the names the matcher binds are annotated fields of the class
    that occur as string leaves of the schema: it never binds a name the
    constructor does not know, and never a literal. *)
Theorem matcher_binds_only_declared_fields
    (j : json) (sch : schema) fields (b : gmap string value) (k : string) (v : value) :
  _from_json_with_match j sch fields = Ok b ->
  b !! k = Some v ->
  In k (map fst fields) /\ In k (schema_strings sch).
Proof.
  intros Hmatch Hk. apply (matcher_keys j sch fields b Hmatch k).
  eexists. exact Hk.
Qed.

Lemma matcher_binds_only_declared_fields_witness :
  In "x" (map fst [("x", TPrim PInt); ("y", TPrim PInt)]) /\
  In "x" (schema_strings (SSeq [SStr "point"; SStr "x"; SStr "y"])).
Proof.
  apply (matcher_binds_only_declared_fields
           (JList [JStr "point"; JInt 3; JInt 4])
           (SSeq [SStr "point"; SStr "x"; SStr "y"])
           [("x", TPrim PInt); ("y", TPrim PInt)]
           (<[ "x" := VInt 3 ]> {[ "y" := VInt 4 ]}) "x" (VInt 3)).
  - vm_compute. reflexivity.
  - reflexivity.
Defined.

Lemma construct_keys_ok cls (b : gmap string value) :
  (forall k, is_Some (b !! k) -> In k (map fst (__annotations__ cls))) ->
  forallb (fun k => bool_decide (k ∈ map fst (__annotations__ cls)))
    (map fst (map_to_list b)) = true.
Proof.
  intros Hkeys. apply forallb_forall. intros k Hk. apply bool_decide_eq_true.
  apply in_map_iff in Hk as ([k' v] & <- & Hkv).
  apply list_elem_of_In, elem_of_map_to_list in Hkv.
  apply list_elem_of_In. apply Hkeys. eexists. exact Hkv.
Qed.

Lemma bound_fields_comprehension (b : gmap string value) names attrs :
  comprehension (fun k => match b !! k with
                          | Some v => Ok (k, v)
                          | None => Raise ConstructorMismatch
                          end) names = Ok attrs <->
  Forall2 (fun k kv => fst kv = k /\ b !! k = Some (snd kv)) names attrs.
Proof.
  rewrite comprehension_Ok_Forall2. split; intros H;
    (eapply Forall2_impl; [exact H|]); intros k [k' v]; cbn [fst snd].
  - destruct (b !! k); [intros [= -> ->]; auto | discriminate].
  - intros [-> ->]. reflexivity.
Qed.

Lemma from_json_Ok_iff (cls : class) (j : json) (x : value) :
  from_json cls j = Ok x <->
  exists (b : gmap string value) attrs,
    _from_json_with_match j (_schema cls) (__annotations__ cls) = Ok b /\
    x = VObj cls attrs /\
    Forall2 (fun k kv => fst kv = k /\ b !! k = Some (snd kv))
      (map fst (__annotations__ cls)) attrs.
Proof.
  unfold from_json. split.
  - destruct (_from_json_with_match _ _ _) as [b|e]; [|discriminate].
    cbn [rbind]. unfold construct.
    destruct (forallb _ _); [|discriminate].
    destruct (comprehension _ _) as [attrs|e] eqn:Hattrs; [|discriminate].
    intros [= <-]. exists b, attrs. repeat split.
    apply bound_fields_comprehension. exact Hattrs.
  - intros (b & attrs & Hmatch & -> & Hattrs). rewrite Hmatch. cbn [rbind].
    unfold construct.
    rewrite construct_keys_ok
      by (intros k Hk; apply (matcher_keys _ _ _ _ Hmatch k Hk)).
    apply bound_fields_comprehension in Hattrs. rewrite Hattrs. reflexivity.
Qed.





Lemma combine_fst_snd_app {A B} (before : list (A * B)) (l : list A) (l' : list B) :
  combine (map fst before ++ l) (map snd before ++ l') = before ++ combine l l'.
Proof.
  induction before as [|[a b] before IH]; [reflexivity|].
  simpl. rewrite IH. reflexivity.
Qed.

(** X7: the siblings of a sequence schema are matched from left to
    right and the first failure is the failure of the whole match: when
    the pairs in [before] match and the next pair raises [e], the
    sequence raises [e], whatever comes after. *)
Theorem sequence_raises_first_failure fields
    (before : list (json * schema)) (sub_j : json) (sub : schema)
    (after_js : list json) (after_subs : list schema) (e : error) :
  Forall (fun p => succeeds (_from_json_with_match (fst p) (snd p) fields) = true)
    before ->
  _from_json_with_match sub_j sub fields = Raise e ->
  _from_json_with_match (JList (map fst before ++ sub_j :: after_js))
    (SSeq (map snd before ++ sub :: after_subs)) fields = Raise e.
Proof.
  intros Hbefore Hsub. rewrite from_json_with_match_seq. cbn [py_iter rbind].
  rewrite combine_fst_snd_app. cbn [combine].
  rewrite (comprehension_first_error
             (fun p => _from_json_with_match (fst p) (snd p) fields)
             before (combine after_js after_subs) (sub_j, sub) e Hbefore Hsub).
  reflexivity.
Qed.

Lemma sequence_raises_first_failure_witness :
  _from_json_with_match
    (JList [JStr "kind_a"; JStr "up"; JInt 5; JStr "tail"])
    (SSeq [SStr "kind_a"; SStr "dir"; SStr "kind_b"; SStr "tail"])
    [("dir", TLiteral [LStr "up"; LStr "down"])] = Raise LiteralMismatch.
Proof.
  apply (sequence_raises_first_failure
           [("dir", TLiteral [LStr "up"; LStr "down"])]
           [(JStr "kind_a", SStr "kind_a"); (JStr "up", SStr "dir")]
           (JInt 5) (SStr "kind_b") [JStr "tail"] [SStr "tail"] LiteralMismatch).
  - repeat constructor.
  - reflexivity.
Defined.

(** ** Further properties of the coercer *)

Lemma literal_eq_bool_int (b : bool) (a : literal) :
  literal_eq (JBool b) a = literal_eq (JInt (Z_of_bool b)) a.
Proof. destruct a as [s|z|b']; [reflexivity | reflexivity |]. destruct b, b'; reflexivity. Qed.

(** X8: a [Literal] takes a boolean exactly when it takes the integer
    the boolean stands for ([True] as 1, [False] as 0), and returns the
    boolean as it came. *)
Theorem literal_takes_bool_as_int (b : bool) (args : list literal) :
  _field_from_json (JBool b) (TLiteral args) = Ok (VBool b) <->
  _field_from_json (JInt (Z_of_bool b)) (TLiteral args) = Ok (VInt (Z_of_bool b)).
Proof.
  cbn [_field_from_json inject].
  assert (Hin : literal_in (JBool b) args = literal_in (JInt (Z_of_bool b)) args).
  { unfold literal_in. induction args as [|a args IH]; [reflexivity|].
    cbn [existsb]. rewrite literal_eq_bool_int, IH. reflexivity. }
  rewrite Hin. clear Hin.
  destruct (literal_in (JInt (Z_of_bool b)) args);
    split; intros H; try discriminate H; reflexivity.
Qed.

Lemma chars_length (s : string) : length (chars s) = String.length s.
Proof. induction s as [|c s IH]; simpl; [reflexivity | rewrite IH; reflexivity]. Qed.

(** X9: a JSON string is taken where a list of primitives is annotated:
    the comprehension iterates over it and the field gets the list of its
    characters, one string each; an integer or a boolean is not
    iterable. *)
Theorem list_of_primitives_takes_string (s : string) (p : prim) :
  _field_from_json (JStr s) (TList (TPrim p)) = Ok (VList (map inject (chars s))) /\
  length (chars s) = String.length s /\
  (forall z, _field_from_json (JInt z) (TList (TPrim p)) = Raise NotIterable) /\
  (forall b, _field_from_json (JBool b) (TList (TPrim p)) = Raise NotIterable).
Proof.
  repeat split; [|apply chars_length].
  cbn [_field_from_json py_iter rbind].
  assert (H : forall l, comprehension (fun sub_j => Ok (inject sub_j)) l
                        = Ok (map inject l)).
  { induction l as [|j l IH]; [reflexivity|].
    cbn [comprehension map rbind]. rewrite IH. reflexivity. }
  change (comprehension _ (chars s))
    with (comprehension (fun sub_j => Ok (inject sub_j)) (chars s)).
  rewrite H. reflexivity.
Qed.

Lemma py_len_iter (j : json) (n : nat) :
  py_len j = Ok n -> exists js, py_iter j = Ok js /\ length js = n.
Proof.
  destruct j as [s|z|b|l|d]; simpl; intros [= <-].
  - exists (chars s). split; [reflexivity | apply chars_length].
  - exists l. split; reflexivity.
  - eexists. split; [reflexivity | apply length_map].
Qed.

Lemma map_snd_combine {A B} (l : list A) (l' : list B) :
  length l = length l' -> map snd (combine l l') = l'.
Proof.
  revert l'. induction l as [|x l IH]; intros [|y l'] Hlen; try discriminate.
  - reflexivity.
  - simpl. f_equal. apply IH. simpl in Hlen. lia.
Qed.

(** X10: when the tuple branch returns, it returns a generator over what
    [j] iterates to, paired by position with the element types: every
    element type is paired, none is dropped, and no element has been
    coerced. *)
Theorem tuple_generator_pairs_all (j : json) (args : list field_type) (v : value) :
  _field_from_json j (TTuple args) = Ok v ->
  exists js,
    py_iter j = Ok js /\
    length js = length args /\
    v = VGen (combine js args) /\
    map snd (combine js args) = args.
Proof.
  cbn [_field_from_json]. destruct (py_len j) as [n|e] eqn:Hlen; [|discriminate].
  cbn [rbind]. destruct (Nat.eqb_spec n (length args)) as [->|_]; [|discriminate].
  destruct (py_len_iter j _ Hlen) as (js & Hiter & Hjs).
  rewrite Hiter. cbn [rbind]. intros [= <-].
  exists js. repeat split; try assumption. apply map_snd_combine. exact Hjs.
Qed.

Lemma tuple_generator_pairs_all_witness :
  exists js,
    py_iter (JStr "ab") = Ok js /\
    length js = length [TPrim PInt; TLiteral [LInt 0]] /\
    VGen [(JStr "a", TPrim PInt); (JStr "b", TLiteral [LInt 0])] =
      VGen (combine js [TPrim PInt; TLiteral [LInt 0]]) /\
    map snd (combine js [TPrim PInt; TLiteral [LInt 0]]) =
      [TPrim PInt; TLiteral [LInt 0]].
Proof.
  apply (tuple_generator_pairs_all (JStr "ab") [TPrim PInt; TLiteral [LInt 0]]).
  reflexivity.
Defined.

(** ** From JSON and back *)

Lemma exact_shape_seq (subs : list schema) (j : json) :
  exact_shape (SSeq subs) j <->
  exists js, j = JList js /\ Forall2 exact_shape subs js.
Proof.
  assert (Haligned : forall subs js,
    (fix aligned (subs : list schema) (js : list json) : Prop :=
       match subs, js with
       | [], [] => True
       | sub :: subs', j' :: js' => exact_shape sub j' /\ aligned subs' js'
       | _, _ => False
       end) subs js <-> Forall2 exact_shape subs js).
  { clear. induction subs as [|sub subs IH]; intros [|j' js].
    - split; [constructor | trivial].
    - split; [contradiction | inversion 1].
    - split; [contradiction | inversion 1].
    - rewrite IH. split.
      + intros [Hsub Hrest]. constructor; assumption.
      + inversion 1; subst. auto. }
  destruct j as [s|z|b|js|d]; cbn [exact_shape];
    try (split; [contradiction | intros (js' & [=] & _)]).
  rewrite Haligned. split.
  - intros H. exists js. auto.
  - intros (js' & [= ->] & H). exact H.
Qed.

Lemma returns_json_coerced (j : json) (t : field_type) (v : value) :
  returns_json t -> _field_from_json j t = Ok v -> v = inject j.
Proof.
  destruct t; try contradiction; intros _; cbn [_field_from_json].
  - intros [= <-]. reflexivity.
  - destruct (literal_in j args); [intros [= <-]; reflexivity | discriminate].
Qed.

Lemma str_eq_json_true (s : string) (j : json) :
  str_eq_json s j = true -> j = JStr s.
Proof.
  destruct j; try discriminate. simpl. intros H.
  apply String.eqb_eq in H. subst. reflexivity.
Qed.

Lemma bound_attribute (b : gmap string value) names attrs :
  Forall2 (fun k kv => fst kv = k /\ b !! k = Some (snd kv)) names attrs ->
  forall k v, In k names -> b !! k = Some v -> lookup_field k attrs = Some v.
Proof.
  induction 1 as [|k0 [k0' v0] names attrs [Hk0 Hv0] _ IH]; intros k v Hin Hk.
  - contradiction.
  - cbn [fst snd] in *. subst k0'. cbn [lookup_field].
    destruct (String.eqb_spec k k0) as [->|Hne]; [congruence|].
    apply IH; [|exact Hk]. destruct Hin as [->|Hin]; [contradiction | exact Hin].
Qed.

(** Walking back the schema of one class, given that the attributes of
    the instance are the values of the bindings [B]. *)
Section DecodeEncode.
Variable fields : list (string * field_type).
Variable attrs : list (string * value).
Variable B : gmap string value.

Hypothesis fields_return_json :
  forall k t, lookup_field k fields = Some t -> returns_json t.
Hypothesis attrs_of_B : sound attrs B.

Let names := map fst fields.
Let rendered := map (fun kv => (fst kv, _fields_to_json (snd kv))) attrs.

Lemma schema_back (sch : schema) :
  forall j (b : gmap string value),
    _from_json_with_match j sch fields = Ok b ->
    exact_shape sch j ->
    NoDup (field_leaves names sch) ->
    (forall k v, b !! k = Some v -> B !! k = Some v) ->
    project names rendered sch = Ok j.
Proof.
  induction sch as [s|z|c|subs IH|] using schema_nested_ind;
    intros j b Hmatch Hshape Hnodup Hsub.
  - rewrite from_json_with_match_str in Hmatch. cbn [project].
    destruct (lookup_field s fields) as [t|] eqn:Hfield.
    + destruct (_field_from_json j t) as [v|e] eqn:Hv; [|discriminate].
      injection Hmatch as <-.
      apply returns_json_coerced in Hv; [|eapply fields_return_json; exact Hfield].
      subst v.
      rewrite bool_decide_true
        by (apply list_elem_of_In; eapply lookup_field_Some_In; exact Hfield).
      unfold rendered. rewrite (lookup_field_map _fields_to_json).
      rewrite (attrs_of_B s (inject j))
        by (apply Hsub; apply lookup_singleton_eq).
      apply fields_to_json_inject.
    + destruct (str_eq_json s j) eqn:Hs; [|discriminate].
      apply str_eq_json_true in Hs. subst j.
      rewrite bool_decide_false; [reflexivity|].
      rewrite list_elem_of_In. apply lookup_field_None. exact Hfield.
  - cbn [exact_shape] in Hshape. subst j. reflexivity.
  - cbn [exact_shape] in Hshape. subst j. reflexivity.
  - apply exact_shape_seq in Hshape as (js & -> & Hshape).
    rewrite from_json_with_match_seq in Hmatch. cbn [py_iter rbind] in Hmatch.
    destruct (comprehension _ (combine js subs)) as [maps|e] eqn:Hmaps;
      [|discriminate].
    injection Hmatch as <-.
    cbn [project].
    change (comprehension _ subs) with (comprehension (project names rendered) subs).
    assert (Hjs : comprehension (project names rendered) subs = Ok js);
      [|rewrite Hjs; reflexivity].
    unfold field_leaves in Hnodup. cbn [schema_strings] in Hnodup.
    clear -IH Hshape Hmaps Hnodup Hsub.
    revert maps Hmaps Hsub.
    induction Hshape as [|sub j' subs js Hj' _ IHsubs]; intros maps Hmaps Hsub.
    + reflexivity.
    + cbn [combine comprehension fst snd] in Hmaps.
      destruct (_from_json_with_match j' sub fields) as [m|e] eqn:Hm;
        [|discriminate].
      cbn [rbind] in Hmaps.
      destruct (comprehension _ (combine js subs)) as [maps'|e] eqn:Hmaps';
        [|discriminate].
      injection Hmaps as <-.
      apply Forall_cons in IH as [IHsub IHrest].
      cbn [flat_map] in Hnodup. rewrite List.filter_app in Hnodup.
      apply NoDup_app in Hnodup as (Hnd1 & Hdisjoint & Hnd2).
      cbn [comprehension].
      rewrite (IHsub j' m Hm Hj' Hnd1).
      * cbn [rbind]. rewrite (IHsubs IHrest Hnd2 maps' eq_refl); [reflexivity|].
        intros k v Hk. apply Hsub. cbn [chain_map foldr].
        apply lookup_union_Some_raw. right. split; [|exact Hk].
        destruct (m !! k) as [v'|] eqn:Hmk; [|reflexivity].
        exfalso. apply (Hdisjoint k).
        -- apply list_elem_of_In, filter_In.
           destruct (matcher_keys _ _ _ _ Hm k (ex_intro _ v' Hmk)) as [Hf Hs].
           split; [exact Hs|]. apply bool_decide_eq_true, list_elem_of_In. exact Hf.
        -- apply list_elem_of_In, filter_In.
           assert (Hseq : _from_json_with_match (JList js) (SSeq subs) fields
                          = Ok (chain_map maps')).
           { rewrite from_json_with_match_seq. cbn [py_iter rbind].
             rewrite Hmaps'. reflexivity. }
           destruct (matcher_keys _ _ _ _ Hseq k (ex_intro _ v Hk)) as [Hf Hs].
           split; [exact Hs|]. apply bool_decide_eq_true, list_elem_of_In. exact Hf.
      * intros k v Hk. apply Hsub. cbn [chain_map foldr].
        apply lookup_union_Some_raw. left. exact Hk.
  - contradiction.
Qed.
End DecodeEncode.

(** X11: for a class whose fields are annotated with primitives or
    literals and whose schema names no field twice, a JSON value of the
    shape of the schema that [from_json] takes is given back by
    [to_json] of the instance. *)
Theorem from_json_then_to_json (cls : class) (j : json) (x : value) :
  Forall (fun kt => returns_json (snd kt)) (__annotations__ cls) ->
  NoDup (field_leaves (map fst (__annotations__ cls)) (_schema cls)) ->
  exact_shape (_schema cls) j ->
  from_json cls j = Ok x ->
  to_json x = Ok j.
Proof.
  intros Hplain Hnodup Hshape Hfrom.
  apply from_json_Ok_iff in Hfrom as (b & attrs & Hmatch & -> & Hattrs).
  cbn [to_json]. unfold _to_json_with_match. cbn [annotations_of attributes_of].
  apply (schema_back (__annotations__ cls) attrs b) with (b := b); try assumption.
  - intros k t Hk. rewrite List.Forall_forall in Hplain.
    clear -Hk Hplain. induction (__annotations__ cls) as [|[k' t'] fields IH];
      [discriminate|].
    cbn [lookup_field] in Hk. destruct (String.eqb k k').
    + injection Hk as <-. apply (Hplain (k', t')). left. reflexivity.
    + apply IH; [|exact Hk]. intros kt Hin. apply Hplain. right. exact Hin.
  - intros k v Hk. apply (bound_attribute b _ _ Hattrs); [|exact Hk].
    apply (matcher_keys _ _ _ _ Hmatch k). eexists. exact Hk.
  - auto.
Qed.

Lemma from_json_then_to_json_witness :
  to_json (VObj KindA [("value", VInt 5)]) = Ok (JList [JStr "kind_a"; JInt 5]).
Proof.
  apply (from_json_then_to_json KindA (JList [JStr "kind_a"; JInt 5])).
  - repeat constructor.
  - apply (bool_decide_unpack _). reflexivity.
  - simpl. auto.
  - reflexivity.
Defined.

(** ** Tuples inside unions, and when [to_json] succeeds *)

Lemma py_iter_len (j : json) (js : list json) :
  py_iter j = Ok js -> py_len j = Ok (length js).
Proof.
  destruct j as [s|z|b|l|d]; simpl; intros [= <-].
  - rewrite chars_length. reflexivity.
  - reflexivity.
  - rewrite length_map. reflexivity.
Qed.

(** X12: in a union, a tuple alternative takes every value of its
    length: nothing is coerced before the generator is returned, so no
    element can make the alternative raise, and the alternatives after it
    are not tried for such a value, whatever the elements are. *)
Theorem union_tuple_alternative_takes_all
    (j : json) (js : list json) (before after args : list field_type) :
  py_iter j = Ok js ->
  length js = length args ->
  Forall (fun t => succeeds (_field_from_json j t) = false) before ->
  _field_from_json j (TUnion (before ++ TTuple args :: after)) =
  Ok (VGen (combine js args)).
Proof.
  intros Hiter Hlen Hbefore. rewrite field_from_json_union, map_app.
  rewrite first_success_app_fail by (apply Forall_map; exact Hbefore).
  cbn [map first_success _field_from_json].
  rewrite (py_iter_len j js Hiter). cbn [rbind].
  rewrite Hlen, Nat.eqb_refl, Hiter. reflexivity.
Qed.

Lemma union_tuple_alternative_takes_all_witness :
  _field_from_json (JList [JStr "a"; JStr "b"])
    (TUnion [TLiteral [LInt 0]; TTuple [TPrim PInt; TLiteral [LInt 1]];
             TList (TPrim PStr)]) =
  Ok (VGen [(JStr "a", TPrim PInt); (JStr "b", TLiteral [LInt 1])]).
Proof.
  apply (union_tuple_alternative_takes_all
           (JList [JStr "a"; JStr "b"]) [JStr "a"; JStr "b"]
           [TLiteral [LInt 0]] [TList (TPrim PStr)]
           [TPrim PInt; TLiteral [LInt 1]]).
  - reflexivity.
  - reflexivity.
  - repeat constructor.
Defined.

Lemma project_succeeds (names : list string)
    (rendered : list (string * result json)) (sch : schema) :
  schema_walkable sch = true ->
  (forall s, In s (schema_strings sch) -> In s names ->
     exists j, lookup_field s rendered = Some (Ok j)) ->
  exists j, project names rendered sch = Ok j.
Proof.
  induction sch as [s|z|b|subs IH|] using schema_nested_ind; intros Hwalk Hattrs.
  - cbn [project]. destruct (bool_decide (s ∈ names)) eqn:Hs.
    + apply bool_decide_eq_true, list_elem_of_In in Hs.
      destruct (Hattrs s) as [j Hj]; [left; reflexivity | exact Hs |].
      rewrite Hj. exists j. reflexivity.
    + eexists. reflexivity.
  - eexists. reflexivity.
  - eexists. reflexivity.
  - cbn [project].
    change (comprehension _ subs) with (comprehension (project names rendered) subs).
    assert (Hsubs : exists js, comprehension (project names rendered) subs = Ok js).
    { cbn [schema_walkable schema_strings] in Hwalk, Hattrs.
      induction IH as [|sub subs Hsub _ IHsubs].
      - exists []. reflexivity.
      - cbn [forallb] in Hwalk. apply andb_prop in Hwalk as [Hw1 Hw2].
        destruct (Hsub Hw1) as [j Hj].
        { intros s Hs. apply Hattrs. cbn [flat_map]. apply in_or_app. left. exact Hs. }
        destruct (IHsubs Hw2) as [js Hjs].
        { intros s Hs. apply Hattrs. cbn [flat_map]. apply in_or_app. right. exact Hs. }
        exists (j :: js). cbn [comprehension]. rewrite Hj, Hjs. reflexivity. }
    destruct Hsubs as [js Hjs]. rewrite Hjs. eexists. reflexivity.
  - discriminate.
Qed.

(** X13: [to_json] of an instance returns a JSON value whenever the
    schema of its class is made of strings, integers, booleans and
    sequences and every field the schema names is an attribute of the
    instance whose value the renderer renders. *)
Theorem to_json_succeeds (cls : class) (attrs : list (string * value)) :
  schema_walkable (_schema cls) = true ->
  (forall s, In s (schema_strings (_schema cls)) ->
     In s (map fst (__annotations__ cls)) ->
     exists v, lookup_field s attrs = Some v /\
               succeeds (_fields_to_json v) = true) ->
  exists j, to_json (VObj cls attrs) = Ok j.
Proof.
  intros Hwalk Hattrs. cbn [to_json]. unfold _to_json_with_match.
  cbn [annotations_of attributes_of].
  apply project_succeeds; [exact Hwalk|].
  intros s Hs Hfield. destruct (Hattrs s Hs Hfield) as (v & Hv & Hrender).
  rewrite (lookup_field_map _fields_to_json), Hv. cbn [option_map].
  destruct (_fields_to_json v) as [j|e]; [|discriminate]. exists j. reflexivity.
Qed.

Lemma to_json_succeeds_witness :
  exists j, to_json (VObj Pair [("both", VTuple [VInt 1; VInt 2])]) = Ok j.
Proof.
  apply (to_json_succeeds Pair [("both", VTuple [VInt 1; VInt 2])]).
  - reflexivity.
  - intros s Hs [<-|[]]. exists (VTuple [VInt 1; VInt 2]). split; reflexivity.
Defined.
